(** * card_manager: the ledger engine and the monthly aggregation

    A shallow embedding of [app.py]: the two database models ([Card],
    [Transaction]), the balance update of [add_transaction], the cascade of
    [delete_card] and the monthly statistics computed by [index].

    Conventions.
    - Amounts are Python floats.  The code only ever uses the literal [0],
      [+] and [-] on them, so the development is parametric in an [Amount]
      structure providing exactly these three; [float_amount] instantiates
      it with IEEE binary64 (what the interpreter computes) and [Z_amount]
      with exact integers.  No algebraic law is assumed unless a theorem
      says so.
    - The integer [0] that starts a bucket of [monthly_stats] becomes a
      float at its first [+=] or [-]; it is [amt_zero].
    - The two tables are a [gmap] from primary key to [Card] and the list
      of [Transaction] rows in insertion order.
    - [db.session] is a unit of work: the handler stages writes and
      [commit] runs them as one storage transaction. *)

From Stdlib Require Import ZArith Lia Ascii String List Floats.PrimFloat.
From stdpp Require Import gmap strings list fin_maps sorting.

Open Scope string_scope.
Open Scope list_scope.
Open Scope Z_scope.

(** ** Amounts *)

Class Amount (F : Type) := {
  amt_zero : F;
  amt_add : F -> F -> F;
  amt_sub : F -> F -> F
}.

(** Python's [float]: IEEE 754 binary64. *)
#[export] Instance float_amount : Amount float :=
  {| amt_zero := 0%float; amt_add := PrimFloat.add; amt_sub := PrimFloat.sub |}.

(** Exact integer amounts (minor units). *)
#[export] Instance Z_amount : Amount Z :=
  {| amt_zero := 0; amt_add := Z.add; amt_sub := Z.sub |}.

(** Arithmetic without rounding: what the aggregation laws need. *)
Class ExactAmount (F : Type) `{Amount F} : Prop := {
  amt_add_comm : forall a b : F, amt_add a b = amt_add b a;
  amt_add_assoc : forall a b c : F, amt_add a (amt_add b c) = amt_add (amt_add a b) c;
  amt_add_zero_l : forall a : F, amt_add amt_zero a = a
}.

(** ** Dates *)

(** The part of a [datetime] that [strftime('%Y-%m')] reads, plus the day. *)
Record datetime := { year : N; month : N; day : N }.

(** [datetime] only holds years 1..9999 and months 1..12. *)
Definition valid_datetime (d : datetime) : Prop :=
  (1 <= year d <= 9999)%N /\ (1 <= month d <= 12)%N.

Definition digit (n : N) : ascii := ascii_of_N (48 + n mod 10).

Definition pad2 (n : N) : string :=
  String (digit (n / 10)) (String (digit n) EmptyString).

Definition pad4 (n : N) : string :=
  String (digit (n / 1000)) (String (digit (n / 100)) (pad2 n)).

(** [date.strftime('%Y-%m')]: four-digit year, dash, two-digit month.
    (For the years 1000..9999 every C library prints this; below 1000 the
    padding of [%Y] is the platform's, and is taken here as the
    specification has it, fixed-width.) *)
Definition strftime_Ym (d : datetime) : string :=
  pad4 (year d) +:+ "-" +:+ pad2 (month d).

Section Ledger.
Context {F : Type} `{Amount F}.

(** ** Database models *)

(** [class Card(db.Model)]; the primary key [id] is the key of the table. *)
Record Card := {
  name : string;
  card_type : string;
  balance : F
}.

(** [class Transaction(db.Model)]. *)
Record Transaction := {
  id : Z;
  card_id : Z;
  transaction_type : string;
  amount : F;
  description : string;
  category : string;
  date : datetime
}.

Record database := {
  cards : gmap Z Card;
  transactions : list Transaction
}.

(** ** The unit of work behind [db.session] *)

(** What a flush sends to the storage.  A new [Transaction] has no primary
    key until its INSERT runs, so the statement carries the other columns. *)
Inductive stmt :=
| UPDATE_card (cid : Z) (c : Card)
| INSERT_transaction (cid : Z) (ttype : string) (amt : F)
                     (descr categ : string) (d : datetime)
| DELETE_transaction (tid : Z)
| DELETE_card (cid : Z).

(** The next rowid of an INTEGER PRIMARY KEY column: one more than the
    largest key in the table. *)
Definition next_id (txs : list Transaction) : Z :=
  1 + fold_right Z.max 0 (map id txs).

Definition exec (s : stmt) (db : database) : database :=
  match s with
  | UPDATE_card cid c =>
      {| cards := <[cid := c]> (cards db); transactions := transactions db |}
  | INSERT_transaction cid ttype amt descr categ d =>
      {| cards := cards db;
         transactions := transactions db ++
           [ {| id := next_id (transactions db); card_id := cid;
                transaction_type := ttype; amount := amt;
                description := descr; category := categ; date := d |} ] |}
  | DELETE_transaction tid =>
      {| cards := cards db;
         transactions := filter (fun t => id t <> tid) (transactions db) |}
  | DELETE_card cid =>
      {| cards := delete cid (cards db); transactions := transactions db |}
  end.

(** The storage may fail.  [fault = Some k] makes the [k]-th operation of a
    commit raise, the statements being numbered from 0 and the final COMMIT
    coming after the last statement; [None] is a storage that works.
    [flush] runs the statements on a working copy and gives [None] as soon
    as one raises. *)
Fixpoint flush (fault : option nat) (ss : list stmt) (db : database)
  : option database :=
  match ss, fault with
  | _, Some O => None
  | [], _ => Some db
  | s :: ss', Some (S k) => flush (Some k) ss' (exec s db)
  | s :: ss', None => flush None ss' (exec s db)
  end.

(** [db.session.commit()]: all staged statements in one storage
    transaction.  [None] stands for the exception it raises after the
    rollback; the caller then still has the database it started from. *)
Definition commit (fault : option nat) (ss : list stmt) (db : database)
  : option database :=
  flush fault ss db.

(** ** Requests and responses *)

Inductive http_method := GET | POST.

(** [request.form] of [/add_transaction], after the conversions of lines
    85-91. *)
Record transaction_form := {
  form_card_id : Z;
  form_transaction_type : string;
  form_amount : F;
  form_description : string;
  form_category : string;
  form_date : datetime
}.

Inductive exn := AttributeError | SQLAlchemyError.

Inductive response :=
| redirect (endpoint : string)
| render_template (template : string)
| abort (code : Z)
| unhandled (e : exn).

(** ** [add_transaction] (lines 82-124) *)

(** The balance update of lines 96-105. *)
Definition balance_update (ctype ttype : string) (bal amt : F) : F :=
  if String.eqb ctype "debit" then
    if String.eqb ttype "expense" then amt_sub bal amt
    else amt_add bal amt
  else
    if String.eqb ttype "expense" then amt_add bal amt
    else amt_sub bal amt.

Definition add_transaction (fault : option nat) (m : http_method)
    (form : transaction_form) (db : database) : database * response :=
  match m with
  | GET => (db, render_template "add_transaction.html")
  | POST =>
      match cards db !! form_card_id form with
      | None => (db, unhandled AttributeError)
      | Some card =>
          let card' :=
            {| name := name card; card_type := card_type card;
               balance := balance_update (card_type card)
                            (form_transaction_type form)
                            (balance card) (form_amount form) |} in
          match commit fault
                  [ UPDATE_card (form_card_id form) card';
                    INSERT_transaction (form_card_id form)
                      (form_transaction_type form) (form_amount form)
                      (form_description form) (form_category form)
                      (form_date form) ] db with
          | Some db' => (db', redirect "index")
          | None => (db, unhandled SQLAlchemyError)
          end
      end
  end.

(** ** [delete_card] (lines 131-136) *)

(** [card.transactions]: the rows whose foreign key is the card. *)
Definition transactions_of (cid : Z) (txs : list Transaction)
  : list Transaction :=
  filter (fun t => card_id t = cid) txs.

(** [cascade='all, delete-orphan']: deleting a card first deletes each row
    of [card.transactions] by primary key. *)
Definition delete_card (fault : option nat) (cid : Z) (db : database)
  : database * response :=
  match cards db !! cid with
  | None => (db, abort 404)
  | Some _ =>
      match commit fault
              (map (fun t => DELETE_transaction (id t))
                   (transactions_of cid (transactions db))
               ++ [DELETE_card cid]) db with
      | Some db' => (db', redirect "index")
      | None => (db, unhandled SQLAlchemyError)
      end
  end.

(** ** [index]: monthly statistics (lines 44-63) *)

Record stats := { income : F; expenses : F; savings : F }.

Definition zero_stats : stats :=
  {| income := amt_zero; expenses := amt_zero; savings := amt_zero |}.

(** The branch of lines 53-56, on the bucket of the transaction. *)
Definition bump (t : Transaction) (s : stats) : stats :=
  if String.eqb (transaction_type t) "income"
  then {| income := amt_add (income s) (amount t);
          expenses := expenses s; savings := savings s |}
  else {| income := income s;
          expenses := amt_add (expenses s) (amount t);
          savings := savings s |}.

(** The body of the first loop, for one transaction. *)
Definition add_to_month (ms : gmap string stats) (t : Transaction)
  : gmap string stats :=
  let month_key := strftime_Ym (date t) in
  let ms1 :=
    match ms !! month_key with
    | None => <[month_key := zero_stats]> ms
    | Some _ => ms
    end in
  alter (bump t) month_key ms1.

(** The body of the second loop. *)
Definition with_savings (s : stats) : stats :=
  {| income := income s; expenses := expenses s;
     savings := amt_sub (income s) (expenses s) |}.

Definition monthly_stats (txs : list Transaction) : gmap string stats :=
  with_savings <$> fold_left add_to_month txs ∅.

(** Descending order on the items; dictionary keys are distinct, so the
    comparison of two items is decided by their keys. *)
Definition item_ge (a b : string * stats) : Prop :=
  String.leb (fst b) (fst a) = true.

#[export] Instance item_ge_dec : RelDecision item_ge :=
  fun a b => decide (String.leb (fst b) (fst a) = true).

(** [sorted(monthly_stats.items(), reverse=True)]. *)
Definition sorted_months (txs : list Transaction) : list (string * stats) :=
  merge_sort item_ge (map_to_list (monthly_stats txs)).

Definition index (db : database)
  : list (Z * Card) * list (string * stats) :=
  (map_to_list (cards db), sorted_months (transactions db)).

(** The card and the row a successful POST leaves in the tables. *)
Definition updated_card (card : Card) (form : transaction_form) : Card :=
  {| name := name card; card_type := card_type card;
     balance := balance_update (card_type card) (form_transaction_type form)
                  (balance card) (form_amount form) |}.

Definition new_transaction (db : database) (form : transaction_form)
  : Transaction :=
  {| id := next_id (transactions db); card_id := form_card_id form;
     transaction_type := form_transaction_type form;
     amount := form_amount form; description := form_description form;
     category := form_category form; date := form_date form |}.

Definition recorded (db : database) (card : Card) (form : transaction_form)
  : database :=
  {| cards := <[form_card_id form := updated_card card form]> (cards db);
     transactions := transactions db ++ [new_transaction db form] |}.

(** A client posting forms one after another to a storage that works. *)
Definition post_all (forms : list transaction_form) (db : database)
  : database :=
  fold_left (fun db form => fst (add_transaction None POST form db)) forms db.

(** Python's [sum], and every [+=] accumulation from [0]. *)
Definition total (l : list F) : F := fold_left amt_add l amt_zero.

(** ** The specification's vocabulary (spec section 4.1) *)

Inductive CardKind := Debit | Credit.
Inductive TransactionKind := Income | Expense.

Definition card_kind_name (k : CardKind) : string :=
  match k with Debit => "debit" | Credit => "credit" end.

Definition transaction_kind_name (k : TransactionKind) : string :=
  match k with Income => "income" | Expense => "expense" end.

Inductive sign := Plus | Minus.

(** The 2x2 sign table, row by row as the specification prints it. *)
Definition sign_table (ck : CardKind) (tk : TransactionKind) : sign :=
  match ck, tk with
  | Debit, Expense => Minus
  | Debit, Income => Plus
  | Credit, Expense => Plus
  | Credit, Income => Minus
  end.

Definition apply_delta (s : sign) (bal amt : F) : F :=
  match s with
  | Plus => amt_add bal amt
  | Minus => amt_sub bal amt
  end.

(** The fold of the balance invariant: the table's deltas applied to the
    initial balance in recording order. *)
Definition fold_deltas (ck : CardKind) (events : list (TransactionKind * F))
    (bal : F) : F :=
  fold_left (fun b ev => apply_delta (sign_table ck (fst ev)) b (snd ev))
            events bal.

(** How the two [else] branches of lines 96-105 read a kind that is not in
    the table. *)
Definition card_kind_read (ctype : string) : CardKind :=
  if String.eqb ctype "debit" then Debit else Credit.

Definition transaction_kind_read (ttype : string) : TransactionKind :=
  if String.eqb ttype "expense" then Expense else Income.

(** A form and the event of the specification it stands for. *)
Definition records (cid : Z) (form : transaction_form)
    (ev : TransactionKind * F) : Prop :=
  form_card_id form = cid /\
  form_transaction_type form = transaction_kind_name (fst ev) /\
  form_amount form = snd ev.

(** The transactions of one month, and the amounts of a list of
    transactions by kind. *)
Definition in_month (month_key : string) (txs : list Transaction)
  : list Transaction :=
  filter (fun t => strftime_Ym (date t) = month_key) txs.

Definition income_amounts (txs : list Transaction) : list F :=
  map amount (filter (fun t => transaction_type t = "income") txs).

Definition expense_amounts (txs : list Transaction) : list F :=
  map amount (filter (fun t => transaction_type t = "expense") txs).

Definition non_income_amounts (txs : list Transaction) : list F :=
  map amount (filter (fun t => transaction_type t <> "income") txs).

(** Every stored kind is income or expense. *)
Definition kinds_in_table (txs : list Transaction) : Prop :=
  Forall (fun t => transaction_type t = "income" \/
                   transaction_type t = "expense") txs.

(** A bucket whose running sums are continued over more transactions,
    taken in the order of the table. *)
Definition continued (s : stats) (txs : list Transaction) : stats :=
  {| income := fold_left amt_add (income_amounts txs) (income s);
     expenses := fold_left amt_add (non_income_amounts txs) (expenses s);
     savings := savings s |}.

(** A column of the buckets, summed. *)
Definition column (f : stats -> F) (items : list (string * stats)) : F :=
  total (map (fun item => f (snd item)) items).

(** The share of one transaction in each column. *)
Definition income_share (t : Transaction) : F :=
  if String.eqb (transaction_type t) "income" then amount t else amt_zero.

Definition expenses_share (t : Transaction) : F :=
  if String.eqb (transaction_type t) "income" then amt_zero else amount t.

(** All statements of a flush, none failing. *)
Definition run_all (ss : list stmt) (db : database) : database :=
  fold_left (fun d s => exec s d) ss db.

(** The commit of [n] statements fails under [fault]. *)
Definition commit_fails (fault : option nat) (n : nat) : Prop :=
  match fault with
  | Some k => (k <= n)%nat
  | None => False
  end.

(** Primary keys are distinct. *)
Definition primary_keys_ok (db : database) : Prop :=
  NoDup (id <$> transactions db).

End Ledger.

Arguments Card F : clear implicits.
Arguments Transaction F : clear implicits.
Arguments database F : clear implicits.
Arguments stmt F : clear implicits.
Arguments stats F : clear implicits.
Arguments transaction_form F : clear implicits.

Section Routes.
Context {F : Type} `{Amount F}.

#[export] Instance commit_fails_dec (fault : option nat) (n : nat)
  : Decision (commit_fails fault n) :=
  match fault as f return Decision (commit_fails f n) with
  | Some k => decide (k <= n)%nat
  | None => right (fun absurd : False => absurd)
  end.

(** ** [add_card] (lines 67-80) *)

(** [request.form] of [/add_card], after the conversion of line 72. *)
Record card_form := {
  form_name : string;
  form_card_type : string;
  form_balance : F
}.

(** The next rowid of the card table. *)
Definition next_card_id (cs : gmap Z (Card F)) : Z :=
  1 + fold_right Z.max 0 (map fst (map_to_list cs)).

(** The INSERT of a new card: the row is written under the next rowid, a
    key the table does not have. *)
Definition INSERT_card (db : database F) (c : Card F) : stmt F :=
  UPDATE_card (next_card_id (cards db)) c.

Definition add_card (fault : option nat) (m : http_method)
    (form : card_form) (db : database F) : database F * response :=
  match m with
  | GET => (db, render_template "add_card.html")
  | POST =>
      let new_card :=
        {| name := form_name form; card_type := form_card_type form;
           balance := form_balance form |} in
      match commit fault [INSERT_card db new_card] db with
      | Some db' => (db', redirect "index")
      | None => (db, unhandled SQLAlchemyError)
      end
  end.

(** ** [transactions] (lines 126-129) *)

Definition datetime_compare (d1 d2 : datetime) : comparison :=
  match N.compare (year d1) (year d2) with
  | Eq => match N.compare (month d1) (month d2) with
          | Eq => N.compare (day d1) (day d2)
          | c => c
          end
  | c => c
  end.

Definition datetime_leb (d1 d2 : datetime) : bool :=
  match datetime_compare d1 d2 with
  | Gt => false
  | _ => true
  end.

(** [Transaction.date.desc()]. *)
Definition date_ge (a b : Transaction F) : Prop :=
  datetime_leb (date b) (date a) = true.

#[export] Instance date_ge_dec : RelDecision date_ge :=
  fun a b => decide (datetime_leb (date b) (date a) = true).

(** [Transaction.query.order_by(Transaction.date.desc()).all()]; the
    order among rows of one date is the storage's. *)
Definition transactions_route (db : database F) : list (Transaction F) :=
  merge_sort date_ge (transactions db).

(** Calendar order, on months and on days. *)
Definition month_before (d1 d2 : datetime) : Prop :=
  (year d1 < year d2 \/ (year d1 = year d2 /\ month d1 < month d2))%N.

Definition not_after (d1 d2 : datetime) : Prop :=
  (year d1 < year d2 \/
   (year d1 = year d2 /\
    (month d1 < month d2 \/ (month d1 = month d2 /\ day d1 <= day d2))))%N.

(** ** Sequences of requests *)

(** The requests that write. *)
Inductive request :=
| add_card_request (m : http_method) (form : card_form)
| add_transaction_request (m : http_method) (form : transaction_form F)
| delete_card_request (cid : Z).

Definition handle (fault : option nat) (r : request) (db : database F)
  : database F * response :=
  match r with
  | add_card_request m form => add_card fault m form db
  | add_transaction_request m form => add_transaction fault m form db
  | delete_card_request cid => delete_card fault cid db
  end.

(** Requests served one after another, each with the storage behaving as
    its [fault] says. *)
Definition serve (rs : list (option nat * request)) (db : database F)
  : database F :=
  fold_left (fun db fr => fst (handle (fst fr) (snd fr) db)) rs db.

(** Every transaction belongs to a card of the table. *)
Definition no_orphans (db : database F) : Prop :=
  Forall (fun t => is_Some (cards db !! card_id t)) (transactions db).

Definition consistent (db : database F) : Prop :=
  primary_keys_ok db /\ no_orphans db.

(** The columns of a row that come from the form. *)
Definition row_fields (t : Transaction F)
  : Z * string * F * string * string * datetime :=
  (card_id t, transaction_type t, amount t, description t, category t, date t).

Definition form_fields (form : transaction_form F)
  : Z * string * F * string * string * datetime :=
  (form_card_id form, form_transaction_type form, form_amount form,
   form_description form, form_category form, form_date form).

End Routes.

Arguments card_form F : clear implicits.
Arguments request F : clear implicits.

(** A delta of the sign table as a signed integer. *)
Definition signed_delta (ck : CardKind) (ev : TransactionKind * Z) : Z :=
  match sign_table ck (fst ev) with
  | Plus => snd ev
  | Minus => - snd ev
  end.

(** ** Concrete data, in binary64 *)

Definition empty_db : database float := {| cards := ∅; transactions := [] |}.

Definition test_debit_card : Card float :=
  {| name := "Test Debit Card"; card_type := "debit"; balance := 1000%float |}.

Definition test_credit_card : Card float :=
  {| name := "Test Credit Card"; card_type := "credit"; balance := 0%float |}.

(** The fixtures of [test_app.py]: one debit card (id 1), one credit card
    (id 2), no transactions. *)
Definition fixture_db : database float :=
  {| cards := <[1 := test_debit_card]> (<[2 := test_credit_card]> ∅);
     transactions := [] |}.

Definition post_form (cid : Z) (ttype : string) (amt : float)
    (y m dd : N) : transaction_form float :=
  {| form_card_id := cid; form_transaction_type := ttype;
     form_amount := amt; form_description := "Test";
     form_category := "Other";
     form_date := {| year := y; month := m; day := dd |} |}.

(** Scenario 5 of the specification, with one expense on the credit card
    in between. *)
Definition mixed_forms : list (transaction_form float) :=
  [ post_form 1 "income" 1000 2024 1 15;
    post_form 1 "expense" 150 2024 1 15;
    post_form 2 "expense" 400 2024 1 5;
    post_form 1 "expense" 75.5 2024 1 15;
    post_form 1 "income" 200 2024 1 15;
    post_form 1 "expense" 300 2024 1 15 ].

Definition mixed_events : list (TransactionKind * float) :=
  [ (Income, 1000%float); (Expense, 150%float); (Expense, 75.5%float);
    (Income, 200%float); (Expense, 300%float) ].

(** Amounts in cents: exact arithmetic. *)
Definition cents_db : database Z :=
  {| cards := <[1 := {| name := "Debit"; card_type := "debit";
                        balance := 100000 |}]> ∅;
     transactions :=
       [ {| id := 1; card_id := 1; transaction_type := "expense";
            amount := 10000; description := "Groceries";
            category := "Food & Dining";
            date := {| year := 2024; month := 1; day := 15 |} |};
         {| id := 2; card_id := 1; transaction_type := "income";
            amount := 5000; description := "Refund";
            category := "Other";
            date := {| year := 2024; month := 2; day := 1 |} |};
         {| id := 3; card_id := 1; transaction_type := "expense";
            amount := 2599; description := "Coffee";
            category := "Food & Dining";
            date := {| year := 2024; month := 2; day := 3 |} |} ] |}.

(** Three transactions, the second on the credit card. *)
Definition two_card_db : database float :=
  post_all [ post_form 1 "expense" 100 2024 1 15;
             post_form 2 "expense" 400 2024 1 5;
             post_form 1 "income" 500 2024 2 1 ] fixture_db.

(** A card of a kind outside the table, and a first purchase on it. *)
Definition prepaid_form : card_form float :=
  {| form_name := "Store card"; form_card_type := "prepaid";
     form_balance := 50%float |}.

(** A day of requests on an empty database; the storage fails twice. *)
Definition busy_day : list (option nat * request float) :=
  [ (None, add_card_request POST
             {| form_name := "Debit"; form_card_type := "debit";
                form_balance := 1000%float |});
    (None, add_transaction_request POST (post_form 1 "expense" 100 2024 1 15));
    (Some 1%nat,
     add_transaction_request POST (post_form 1 "expense" 30 2024 1 16));
    (None, add_transaction_request POST (post_form 7 "income" 5 2024 1 17));
    (Some 0%nat, delete_card_request 1);
    (None, add_card_request POST prepaid_form);
    (None, delete_card_request 1) ].

Definition two_posts : list (option nat * request float) :=
  [ (None, add_transaction_request POST (post_form 1 "expense" 100 2024 1 15));
    (Some 1%nat,
     add_transaction_request POST (post_form 2 "income" 30 2024 1 16)) ].

(** The rows of [cents_db] as another storage might return them. *)
Definition cents_db_reversed : database Z :=
  {| cards := cards cents_db; transactions := rev (transactions cents_db) |}.

Definition cents_start : database Z :=
  {| cards := cards cents_db; transactions := [] |}.

Definition cents_form (ttype : string) (amt : Z) (y m dd : N)
  : transaction_form Z :=
  {| form_card_id := 1; form_transaction_type := ttype; form_amount := amt;
     form_description := "Test"; form_category := "Other";
     form_date := {| year := y; month := m; day := dd |} |}.

Definition cents_forms : list (transaction_form Z) :=
  [ cents_form "income" 100000 2024 1 1;
    cents_form "expense" 15000 2024 1 20;
    cents_form "expense" 7550 2024 2 3;
    cents_form "income" 20000 2024 2 10 ].

Definition cents_events : list (TransactionKind * Z) :=
  [ (Income, 100000); (Expense, 15000); (Expense, 7550); (Income, 20000) ].

(** One form seen by the ledger of a debit card, by the statistics, and
    the amount it carries when its kind is neither income nor expense. *)
Definition debit_delta (form : transaction_form Z) : Z :=
  if String.eqb (form_transaction_type form) "expense"
  then - form_amount form else form_amount form.

Definition saving_of (form : transaction_form Z) : Z :=
  if String.eqb (form_transaction_type form) "income"
  then form_amount form else - form_amount form.

Definition unknown_kind (form : transaction_form Z) : Prop :=
  form_transaction_type form <> "income" /\
  form_transaction_type form <> "expense".

Definition sumZ (l : list Z) : Z := fold_right Z.add 0 l.

Definition cents_forms_with_refund : list (transaction_form Z) :=
  [ cents_form "income" 100000 2024 1 1;
    cents_form "expense" 15000 2024 1 20;
    cents_form "refund" 500 2024 2 3 ].

(** * Properties *)

#[export] Instance Z_exact : ExactAmount Z.
Proof. split; simpl; intros; lia. Qed.

Section LedgerFacts.
Context {F : Type} `{Amount F}.

Implicit Types (db : database F) (form : transaction_form F) (card : Card F).

(** ** The sign table against the code *)

Lemma balance_update_table (ck : CardKind) (tk : TransactionKind) (bal amt : F) :
  balance_update (card_kind_name ck) (transaction_kind_name tk) bal amt
  = apply_delta (sign_table ck tk) bal amt.
Proof. destruct ck, tk; reflexivity. Qed.

Lemma balance_update_read (ctype ttype : string) (bal amt : F) :
  balance_update ctype ttype bal amt
  = apply_delta (sign_table (card_kind_read ctype) (transaction_kind_read ttype))
                bal amt.
Proof.
  unfold balance_update, card_kind_read, transaction_kind_read.
  destruct (String.eqb ctype "debit"), (String.eqb ttype "expense"); reflexivity.
Qed.

Lemma transaction_kind_read_unknown (ttype : string) :
  ttype <> "expense" -> transaction_kind_read ttype = Income.
Proof.
  intros Hne. unfold transaction_kind_read.
  destruct (String.eqb_spec ttype "expense"); [contradiction | reflexivity].
Qed.

Lemma card_kind_read_name (ck : CardKind) :
  card_kind_read (card_kind_name ck) = ck.
Proof. destruct ck; reflexivity. Qed.

(** ** What one POST does *)

Lemma add_transaction_post fault form db card :
  cards db !! form_card_id form = Some card ->
  add_transaction fault POST form db =
    match fault with
    | Some 0%nat | Some 1%nat | Some 2%nat => (db, unhandled SQLAlchemyError)
    | _ => (recorded db card form, redirect "index")
    end.
Proof.
  intros Hcard. unfold add_transaction. rewrite Hcard.
  destruct fault as [[|[|[|k]]]|]; reflexivity.
Qed.

Lemma add_transaction_recorded form db card :
  cards db !! form_card_id form = Some card ->
  add_transaction None POST form db = (recorded db card form, redirect "index").
Proof. intros Hcard. by rewrite (add_transaction_post _ _ _ _ Hcard). Qed.

Lemma add_transaction_missing fault form db :
  cards db !! form_card_id form = None ->
  add_transaction fault POST form db = (db, unhandled AttributeError).
Proof. intros Hnone. unfold add_transaction. by rewrite Hnone. Qed.

(** ** The sign table (C1) *)


(** ** Kinds outside the table (C3, C10) *)


(** ** The balance fold (C2) *)

Lemma post_all_cons form forms db :
  post_all (form :: forms) db
  = post_all forms (fst (add_transaction None POST form db)).
Proof. reflexivity. Qed.

(** One POST seen from a card [cid]: the card stays, and its balance moves
    exactly when the form names it. *)
Lemma add_transaction_card_step form db cid card :
  cards db !! cid = Some card ->
  cards (fst (add_transaction None POST form db)) !! cid =
    Some (if decide (form_card_id form = cid) then updated_card card form
          else card).
Proof.
  intros Hcard. case_decide as Hid.
  - subst cid. rewrite (add_transaction_recorded _ _ _ Hcard). simpl.
    apply lookup_insert_eq.
  - destruct (cards db !! form_card_id form) as [other|] eqn:Hother.
    + rewrite (add_transaction_recorded _ _ _ Hother). simpl.
      by rewrite lookup_insert_ne.
    + by rewrite (add_transaction_missing _ _ _ Hother).
Qed.

Lemma post_all_balance cid ck forms :
  forall db card events,
    cards db !! cid = Some card ->
    card_type card = card_kind_name ck ->
    Forall2 (records cid) (filter (fun form => form_card_id form = cid) forms)
            events ->
    exists card',
      cards (post_all forms db) !! cid = Some card' /\
      card_type card' = card_type card /\
      balance card' = fold_deltas ck events (balance card).
Proof.
  induction forms as [|form forms IH]; intros db card events Hcard Hck Hrec.
  - inversion Hrec; subst. exists card. by simpl.
  - rewrite post_all_cons.
    pose proof (add_transaction_card_step form db cid card Hcard) as Hstep.
    rewrite filter_cons in Hrec. case_decide as Hid.
    + inversion Hrec as [|? ev ? events' Hev Hrest]; subst.
      destruct Hev as (_ & Hkind & Hamt).
      destruct (IH _ _ events' Hstep Hck Hrest) as (card' & Hc' & Hty & Hbal).
      exists card'. split; [exact Hc' |]. split; [exact Hty |].
      rewrite Hbal. simpl. rewrite Hck, Hkind, Hamt.
      by rewrite balance_update_table.
    + exact (IH _ _ events Hstep Hck Hrec).
Qed.



(** ** A card id that names no card (C4) *)

Lemma delete_card_missing fault cid db :
  cards db !! cid = None -> delete_card fault cid db = (db, abort 404).
Proof. intros Hnone. unfold delete_card. by rewrite Hnone. Qed.

(** ** One commit for both writes (C5) *)

(** C5: for a POST naming an existing card, whatever the storage does: if
    the commit fails at any of its operations (the UPDATE of the card, the
    INSERT of the transaction, or the COMMIT) the database is the one the
    request started from; otherwise both the new balance and the new row
    are there.  No outcome has exactly one of the two. *)
Theorem add_transaction_atomic fault form db card :
  cards db !! form_card_id form = Some card ->
  let db' := fst (add_transaction fault POST form db) in
  let resp := snd (add_transaction fault POST form db) in
  (commit_fails fault 2 -> db' = db /\ resp = unhandled SQLAlchemyError) /\
  (~ commit_fails fault 2 ->
     resp = redirect "index" /\
     cards db' = <[form_card_id form := updated_card card form]> (cards db) /\
     transactions db' = transactions db ++ [new_transaction db form]) /\
  ((cards db' = cards db /\ transactions db' = transactions db) \/
   (cards db' !! form_card_id form = Some (updated_card card form) /\
    transactions db' = transactions db ++ [new_transaction db form])).
Proof.
  intros Hcard. cbn zeta. rewrite (add_transaction_post _ _ _ _ Hcard).
  destruct fault as [[|[|[|k]]]|]; simpl.
  1-3: split; [done |]; split; [intros Hn; exfalso; apply Hn; lia |];
       left; done.
  - split; [intros Hk; lia |]. split; [done |]. right.
    split; [apply lookup_insert_eq | done].
  - split; [done |]. split; [done |]. right.
    split; [apply lookup_insert_eq | done].
Qed.

End LedgerFacts.

(** ** Lists *)

Section ListFacts.
Context {A : Type}.

Lemma filter_ext_elem (P Q : A -> Prop)
    `{!forall x, Decision (P x)} `{!forall x, Decision (Q x)} (l : list A) :
  (forall x, x ∈ l -> P x <-> Q x) -> filter P l = filter Q l.
Proof.
  induction l as [|x l IH]; intros Hext; [done |].
  rewrite !filter_cons.
  assert (Hl : forall y, y ∈ l -> P y <-> Q y)
    by (intros y Hy; apply Hext; by right).
  rewrite (IH Hl).
  destruct (decide (P x)) as [Hp|Hp], (decide (Q x)) as [Hq|Hq]; try done.
  - exfalso. apply Hq, (Hext x); [left | done].
  - exfalso. apply Hp, (Hext x); [left | done].
Qed.

Lemma filter_all (P : A -> Prop) `{!forall x, Decision (P x)} (l : list A) :
  (forall x, x ∈ l -> P x) -> filter P l = l.
Proof.
  induction l as [|x l IH]; intros Hall; [done |].
  rewrite filter_cons, decide_True by (apply Hall; left).
  f_equal. apply IH. intros y Hy. apply Hall. by right.
Qed.

Lemma filter_none (P : A -> Prop) `{!forall x, Decision (P x)} (l : list A) :
  (forall x, x ∈ l -> ~ P x) -> filter P l = [].
Proof.
  induction l as [|x l IH]; intros Hnone; [done |].
  rewrite filter_cons, decide_False by (apply Hnone; left).
  apply IH. intros y Hy. apply Hnone. by right.
Qed.

Lemma NoDup_key_inj {K : Type} (key : A -> K) (l : list A) (x y : A) :
  NoDup (key <$> l) -> x ∈ l -> y ∈ l -> key x = key y -> x = y.
Proof.
  induction l as [|z l IH]; intros Hnd Hx Hy Heq.
  - by apply elem_of_nil in Hx.
  - rewrite fmap_cons in Hnd. apply NoDup_cons in Hnd as [Hz Hnd].
    apply elem_of_cons in Hx as [->|Hx], Hy as [->|Hy]; auto.
    + exfalso. apply Hz. rewrite Heq. apply list_elem_of_fmap. by exists y.
    + exfalso. apply Hz. rewrite <- Heq. apply list_elem_of_fmap. by exists x.
Qed.

End ListFacts.

(** ** The month key *)

Lemma digit_inj (a b : N) : digit a = digit b -> (a mod 10 = b mod 10)%N.
Proof.
  unfold digit. intros Heq. apply (f_equal N_of_ascii) in Heq.
  pose proof (N.mod_lt a 10). pose proof (N.mod_lt b 10).
  rewrite !N_ascii_embedding in Heq by lia. lia.
Qed.

Lemma decimal2 (n : N) :
  (n < 100 -> n = 10 * ((n / 10) mod 10) + n mod 10)%N.
Proof.
  intros Hn.
  assert (Hq : ((n / 10) mod 10 = n / 10)%N).
  { apply N.mod_small, N.Div0.div_lt_upper_bound. lia. }
  pose proof (N.Div0.div_mod n 10). rewrite Hq. lia.
Qed.

Lemma decimal4 (n : N) :
  (n < 10000 ->
   n = 1000 * ((n / 1000) mod 10) + 100 * ((n / 100) mod 10)
       + 10 * ((n / 10) mod 10) + n mod 10)%N.
Proof.
  intros Hn.
  assert (H1 : (n / 10 / 10 = n / 100)%N) by (by rewrite N.Div0.div_div).
  assert (H2 : (n / 100 / 10 = n / 1000)%N) by (by rewrite N.Div0.div_div).
  assert (Hq : ((n / 1000) mod 10 = n / 1000)%N).
  { apply N.mod_small, N.Div0.div_lt_upper_bound. lia. }
  pose proof (N.Div0.div_mod n 10) as E0.
  pose proof (N.Div0.div_mod (n / 10) 10) as E1.
  pose proof (N.Div0.div_mod (n / 100) 10) as E2.
  rewrite H1 in E1. rewrite H2 in E2. rewrite Hq. lia.
Qed.

(** Two valid dates have the same key exactly when they lie in the same
    month of the same year. *)
Lemma strftime_Ym_inj (d1 d2 : datetime) :
  valid_datetime d1 -> valid_datetime d2 ->
  strftime_Ym d1 = strftime_Ym d2 <->
  year d1 = year d2 /\ month d1 = month d2.
Proof.
  intros [Hy1 Hm1] [Hy2 Hm2]. split.
  - unfold strftime_Ym, pad4, pad2. simpl. intros Heq.
    injection Heq as Y3 Y2 Y1 Y0 M1 M0.
    apply digit_inj in Y3, Y2, Y1, Y0, M1, M0. split.
    + rewrite (decimal4 (year d1)), (decimal4 (year d2)) by lia.
      by rewrite Y3, Y2, Y1, Y0.
    + rewrite (decimal2 (month d1)), (decimal2 (month d2)) by lia.
      by rewrite M1, M0.
  - intros [Hy Hm]. unfold strftime_Ym. by rewrite Hy, Hm.
Qed.

Section AggregationFacts.
Context {F : Type} `{Amount F}.

Implicit Types (t : Transaction F) (txs : list (Transaction F))
  (ms : gmap string (stats F)) (s : stats F).

(** ** The first loop, month by month *)

Lemma add_to_month_lookup ms t k :
  add_to_month ms t !! k =
    if decide (strftime_Ym (date t) = k)
    then Some (bump t (default zero_stats (ms !! k)))
    else ms !! k.
Proof.
  unfold add_to_month. cbn zeta. case_decide as Hk.
  - subst k. rewrite lookup_alter_eq.
    destruct (ms !! strftime_Ym (date t)) as [s0|] eqn:Hms.
    + by rewrite Hms.
    + by rewrite lookup_insert_eq.
  - rewrite lookup_alter_ne by done.
    destruct (ms !! strftime_Ym (date t)); [done |].
    by rewrite lookup_insert_ne.
Qed.

Lemma continued_nil s : continued s [] = s.
Proof. by destruct s. Qed.

Lemma continued_cons s t txs : continued s (t :: txs) = continued (bump t s) txs.
Proof.
  unfold continued, bump, income_amounts, non_income_amounts.
  rewrite !filter_cons.
  destruct (String.eqb_spec (transaction_type t) "income") as [Hi|Hi].
  - rewrite decide_True by done. rewrite decide_False by tauto. done.
  - rewrite decide_False by done. rewrite decide_True by done. done.
Qed.

Lemma loop_lookup txs : forall ms k,
  fold_left add_to_month txs ms !! k =
    match ms !! k, in_month k txs with
    | None, [] => None
    | o, month => Some (continued (default zero_stats o) month)
    end.
Proof.
  induction txs as [|t txs IH]; intros ms k.
  - simpl. destruct (ms !! k) as [s|]; [by rewrite continued_nil | done].
  - simpl. rewrite IH, add_to_month_lookup. unfold in_month.
    rewrite filter_cons. case_decide as Hk.
    + destruct (ms !! k); simpl; by rewrite continued_cons.
    + done.
Qed.

Lemma monthly_stats_lookup txs k :
  monthly_stats txs !! k =
    match in_month k txs with
    | [] => None
    | month => Some (with_savings (continued zero_stats month))
    end.
Proof.
  unfold monthly_stats. rewrite lookup_fmap, loop_lookup, lookup_empty.
  by destruct (in_month k txs).
Qed.

(** ** The order of the month keys *)

Lemma string_leb_trans (a : string) : forall b c : string,
  String.leb a b = true -> String.leb b c = true -> String.leb a c = true.
Proof.
  unfold String.leb.
  induction a as [|x a IH]; intros [|y b] [|z c]; simpl; try done.
  unfold Ascii.compare.
  destruct (N.compare_spec (N_of_ascii x) (N_of_ascii y)) as [Hxy|Hxy|Hxy],
           (N.compare_spec (N_of_ascii y) (N_of_ascii z)) as [Hyz|Hyz|Hyz],
           (N.compare_spec (N_of_ascii x) (N_of_ascii z)) as [Hxz|Hxz|Hxz];
    try done; try lia.
  apply IH.
Qed.

Lemma string_ltb_leb_ne (a b : string) :
  String.leb a b = true -> a <> b -> String.ltb a b = true.
Proof.
  unfold String.leb, String.ltb. intros Hle Hne.
  destruct (String.compare a b) eqn:Hcmp; try done.
  by apply String.compare_eq_iff in Hcmp.
Qed.

#[export] Instance item_ge_trans : Transitive (@item_ge F).
Proof. intros a b c Hab Hbc. exact (string_leb_trans _ _ _ Hbc Hab). Qed.

#[export] Instance item_ge_total : Total (@item_ge F).
Proof. intros a b. unfold item_ge. destruct (String.leb_total a.1 b.1); auto. Qed.

Lemma sorted_months_perm txs :
  sorted_months txs ≡ₚ map_to_list (monthly_stats txs).
Proof. apply merge_sort_Permutation. Qed.

Lemma elem_of_sorted_months txs k s :
  (k, s) ∈ sorted_months txs <-> monthly_stats txs !! k = Some s.
Proof. by rewrite sorted_months_perm, elem_of_map_to_list. Qed.

Lemma sorted_months_NoDup txs : NoDup (sorted_months txs).*1.
Proof. rewrite sorted_months_perm. apply NoDup_fst_map_to_list. Qed.

(** A list sorted in descending order with distinct keys is strictly
    descending. *)
Lemma descending_strict (l : list (string * stats F)) :
  StronglySorted item_ge l -> NoDup l.*1 ->
  StronglySorted (fun a b => String.ltb b.1 a.1 = true) l.
Proof.
  induction 1 as [|x l Hsorted IH Hx]; intros Hnd; [constructor |].
  rewrite fmap_cons in Hnd. apply NoDup_cons in Hnd as [Hfresh Hnd].
  constructor; [by apply IH |].
  rewrite Forall_forall in Hx |- *. intros y Hy.
  apply string_ltb_leb_ne; [by apply Hx |].
  intros Heq. apply Hfresh. rewrite <- Heq.
  apply list_elem_of_fmap. by exists y.
Qed.

(** The order of the result does not depend on the sorting algorithm: the
    items have distinct keys, so there is one descending arrangement. *)
Lemma sorted_months_unique txs (items : list (string * stats F)) :
  items ≡ₚ map_to_list (monthly_stats txs) ->
  StronglySorted item_ge items ->
  items = sorted_months txs.
Proof.
  intros Hperm Hsorted.
  apply (StronglySorted_unique_strong item_ge); [| done | |].
  - intros x1 x2 Hx1 Hx2 H12 H21.
    rewrite <- sorted_months_perm in Hperm. rewrite Hperm in Hx1.
    apply (NoDup_key_inj fst (sorted_months txs)); try done.
    + apply sorted_months_NoDup.
    + by apply String.leb_antisym.
  - apply (StronglySorted_merge_sort item_ge).
  - by rewrite sorted_months_perm.
Qed.

Lemma in_month_nonempty txs k :
  in_month k txs <> [] <-> exists t, t ∈ txs /\ strftime_Ym (date t) = k.
Proof.
  unfold in_month. split.
  - destruct (filter _ txs) as [|t l] eqn:Hf; [done |]. intros _.
    assert (Ht : t ∈ filter (fun t => strftime_Ym (date t) = k) txs)
      by (rewrite Hf; left).
    apply list_elem_of_filter in Ht as [Hk Ht]. by exists t.
  - intros (t & Ht & Hk) Hnil.
    assert (Hin : t ∈ filter (fun t => strftime_Ym (date t) = k) txs)
      by (by apply list_elem_of_filter).
    rewrite Hnil in Hin. by apply elem_of_nil in Hin.
Qed.

Lemma monthly_stats_is_Some txs k :
  is_Some (monthly_stats txs !! k) <->
  exists t, t ∈ txs /\ strftime_Ym (date t) = k.
Proof.
  rewrite <- in_month_nonempty, monthly_stats_lookup.
  destruct (in_month k txs); split; done.
Qed.


(** ** The buckets (C6) *)

Lemma non_income_is_expense txs :
  kinds_in_table txs -> non_income_amounts txs = expense_amounts txs.
Proof.
  unfold kinds_in_table, non_income_amounts, expense_amounts.
  induction 1 as [|t txs Ht _ IH]; [done |].
  rewrite !filter_cons.
  destruct Ht as [Hi|He].
  - rewrite decide_False by (rewrite Hi; tauto).
    rewrite decide_False by (rewrite Hi; discriminate). exact IH.
  - rewrite decide_True by (rewrite He; discriminate).
    rewrite decide_True by done. simpl. by rewrite IH.
Qed.

Lemma kinds_in_table_in_month k txs :
  kinds_in_table txs -> kinds_in_table (in_month k txs).
Proof.
  unfold kinds_in_table, in_month. rewrite !Forall_forall.
  intros Hall t Ht. apply list_elem_of_filter in Ht as [_ Ht]. by apply Hall.
Qed.

(** C6 (amended): [index] has a bucket for a key exactly when some
    transaction of the table, of any card, has that "YYYY-MM" key; the
    bucket's income is the sum of the amounts of the month's income
    transactions, its expenses the sum of the amounts of the month's
    transactions that are not income (its expense transactions, when
    every kind is income or expense), and its savings income minus
    expenses.  Valid dates share a key exactly when they share year and
    month. *)
Theorem monthly_statistics_by_month (db : database F) :
  (forall k s,
      (k, s) ∈ snd (index db) <->
      (exists t, t ∈ transactions db /\ strftime_Ym (date t) = k) /\
      income s = total (income_amounts (in_month k (transactions db))) /\
      expenses s = total (non_income_amounts (in_month k (transactions db))) /\
      savings s = amt_sub (income s) (expenses s)) /\
  (forall k,
      kinds_in_table (transactions db) ->
      non_income_amounts (in_month k (transactions db))
      = expense_amounts (in_month k (transactions db))) /\
  (forall t1 t2,
      valid_datetime (date t1) -> valid_datetime (date t2) ->
      strftime_Ym (date t1) = strftime_Ym (date t2) <->
      year (date t1) = year (date t2) /\ month (date t1) = month (date t2)).
Proof.
  split; [| split].
  - intros k s. simpl. rewrite elem_of_sorted_months, monthly_stats_lookup.
    rewrite <- in_month_nonempty.
    destruct (in_month k (transactions db)) as [|t month] eqn:Hmonth.
    + split; [done |]. by intros [? _].
    + split.
      * intros [= <-]. by repeat split.
      * intros (_ & Hi & He & Hs). destruct s as [i e sv]. simpl in *.
        subst. reflexivity.
  - intros k Hkinds. by apply non_income_is_expense, kinds_in_table_in_month.
  - intros t1 t2. apply strftime_Ym_inj.
Qed.

End AggregationFacts.

Section SumLaw.
Context {F : Type} `{ExactAmount F}.

Implicit Types (t : Transaction F) (txs : list (Transaction F))
  (ms : gmap string (stats F)) (s : stats F) (l : list F).

(** ** Sums in exact arithmetic *)

Lemma amt_add_zero_r (a : F) : amt_add a amt_zero = a.
Proof. by rewrite amt_add_comm, amt_add_zero_l. Qed.

Lemma fold_add_start l : forall a : F,
  fold_left amt_add l a = amt_add a (total l).
Proof.
  unfold total. induction l as [|b l IH]; intros a; simpl.
  - by rewrite amt_add_zero_r.
  - rewrite (IH (amt_add a b)), (IH (amt_add amt_zero b)).
    by rewrite amt_add_zero_l, amt_add_assoc.
Qed.

Lemma total_cons (a : F) l : total (a :: l) = amt_add a (total l).
Proof. unfold total at 1. simpl. by rewrite fold_add_start, amt_add_zero_l. Qed.

Lemma total_perm l l' : l ≡ₚ l' -> total l = total l'.
Proof.
  induction 1 as [|a l l' _ IH|a b l|l l' l'' _ IH1 _ IH2].
  - done.
  - by rewrite !total_cons, IH.
  - rewrite !total_cons, !amt_add_assoc. by rewrite (amt_add_comm a b).
  - by rewrite IH1.
Qed.

(** ** A column of the buckets, summed *)

Lemma column_perm f (items items' : list (string * stats F)) :
  items ≡ₚ items' -> column f items = column f items'.
Proof. intros Hp. apply total_perm. by rewrite Hp. Qed.

Lemma column_cons f k s (items : list (string * stats F)) :
  column f ((k, s) :: items) = amt_add (f s) (column f items).
Proof. apply total_cons. Qed.

(** The second loop does not touch a column it does not write. *)
Lemma column_with_savings f ms :
  (forall s, f (with_savings s) = f s) ->
  column f (map_to_list (with_savings <$> ms)) = column f (map_to_list ms).
Proof.
  intros Hf. rewrite map_to_list_fmap. unfold column. f_equal.
  induction (map_to_list ms) as [|[k s] items IH]; [done |].
  rewrite fmap_cons. simpl. by rewrite Hf, IH.
Qed.

Lemma add_to_month_insert ms t :
  add_to_month ms t =
    <[strftime_Ym (date t) :=
        bump t (default zero_stats (ms !! strftime_Ym (date t)))]> ms.
Proof.
  apply map_eq. intros k. rewrite add_to_month_lookup, lookup_insert.
  by case_decide; subst.
Qed.

(** Writing a bucket: the column loses the old entry and gains the new. *)
Lemma column_insert f ms k s :
  f zero_stats = amt_zero ->
  exists rest,
    column f (map_to_list ms) = amt_add (f (default zero_stats (ms !! k))) rest /\
    column f (map_to_list (<[k := s]> ms)) = amt_add (f s) rest.
Proof.
  intros Hzero. destruct (ms !! k) as [s0|] eqn:Hk; simpl.
  - exists (column f (map_to_list (delete k ms))). split.
    + rewrite <- (column_cons f k). apply column_perm.
      symmetry. by apply map_to_list_delete.
    + rewrite <- insert_delete_eq, <- (column_cons f k). apply column_perm.
      apply map_to_list_insert, lookup_delete_eq.
  - exists (column f (map_to_list ms)). split.
    + by rewrite Hzero, amt_add_zero_l.
    + rewrite <- (column_cons f k). apply column_perm.
      by apply map_to_list_insert.
Qed.

Lemma column_loop f (share : Transaction F -> F) :
  f zero_stats = amt_zero ->
  (forall t s, f (bump t s) = amt_add (f s) (share t)) ->
  forall txs ms,
    column f (map_to_list (fold_left add_to_month txs ms))
    = amt_add (column f (map_to_list ms)) (total (map share txs)).
Proof.
  intros Hzero Hbump. induction txs as [|t txs IH]; intros ms; simpl.
  - by rewrite amt_add_zero_r.
  - rewrite IH, total_cons, add_to_month_insert.
    destruct (column_insert f ms (strftime_Ym (date t))
                (bump t (default zero_stats (ms !! strftime_Ym (date t))))
                Hzero) as (rest & -> & ->).
    rewrite Hbump, !amt_add_assoc. f_equal.
    rewrite <- !amt_add_assoc. f_equal. apply amt_add_comm.
Qed.

Lemma total_income_share txs :
  total (map income_share txs) = total (income_amounts txs).
Proof.
  unfold income_amounts. induction txs as [|t txs IH]; [done |].
  rewrite filter_cons. simpl. rewrite total_cons, IH. unfold income_share.
  destruct (String.eqb_spec (transaction_type t) "income").
  - rewrite decide_True by done. simpl. by rewrite total_cons.
  - rewrite decide_False by done. apply amt_add_zero_l.
Qed.

Lemma total_expenses_share txs :
  total (map expenses_share txs) = total (non_income_amounts txs).
Proof.
  unfold non_income_amounts. induction txs as [|t txs IH]; [done |].
  rewrite filter_cons. simpl. rewrite total_cons, IH. unfold expenses_share.
  destruct (String.eqb_spec (transaction_type t) "income").
  - rewrite decide_False by tauto. apply amt_add_zero_l.
  - rewrite decide_True by done. simpl. by rewrite total_cons.
Qed.

Lemma column_sorted_months f share txs :
  f zero_stats = amt_zero ->
  (forall s, f (with_savings s) = f s) ->
  (forall t s, f (bump t s) = amt_add (f s) (share t)) ->
  column f (sorted_months txs) = total (map share txs).
Proof.
  intros Hzero Hsav Hbump.
  rewrite (column_perm _ _ _ (sorted_months_perm txs)). unfold monthly_stats.
  rewrite column_with_savings by done.
  rewrite (column_loop f share Hzero Hbump).
  rewrite map_to_list_empty. apply amt_add_zero_l.
Qed.


End SumLaw.

Section CascadeFacts.
Context {F : Type} `{Amount F}.

Implicit Types (db : database F) (t : Transaction F)
  (txs : list (Transaction F)) (ss : list (stmt F)).

(** ** A storage that works runs every statement *)

Lemma flush_None ss : forall db,
  flush None ss db = Some (fold_left (fun d s => exec s d) ss db).
Proof. induction ss as [|s ss IH]; intros db; simpl; [done | apply IH]. Qed.

Lemma exec_deletes (ids : list Z) : forall db,
  cards (run_all (map DELETE_transaction ids) db) = cards db /\
  transactions (run_all (map DELETE_transaction ids) db)
  = filter (fun t => id t ∉ ids) (transactions db).
Proof.
  unfold run_all. induction ids as [|i ids IH]; intros db; cbn [map fold_left].
  - split; [done |]. symmetry. apply filter_all. intros t _. apply not_elem_of_nil.
  - destruct (IH (exec (DELETE_transaction i) db)) as [Hcards Htxs].
    split; [by rewrite Hcards |].
    rewrite Htxs. simpl. rewrite list_filter_filter.
    apply list_filter_iff. intros t. rewrite not_elem_of_cons. tauto.
Qed.

(** The rows deleted by primary key are the rows of the card. *)
Lemma cascade_by_key cid txs :
  NoDup (id <$> txs) ->
  filter (fun t => id t ∉ map id (transactions_of cid txs)) txs
  = filter (fun t => card_id t <> cid) txs.
Proof.
  intros Hnd. apply filter_ext_elem. intros t Ht. split.
  - intros Hnot Hcid. apply Hnot. apply list_elem_of_In, in_map.
    apply list_elem_of_In. by apply list_elem_of_filter.
  - intros Hcid Hin. apply list_elem_of_In, in_map_iff in Hin as (t' & Hid & Hin).
    apply list_elem_of_In, list_elem_of_filter in Hin as [Hcid' Hin].
    assert (t' = t) by (by apply (NoDup_key_inj id txs)). by subst.
Qed.

Lemma delete_card_post cid db card :
  primary_keys_ok db ->
  cards db !! cid = Some card ->
  delete_card None cid db =
    ({| cards := delete cid (cards db);
        transactions := filter (fun t => card_id t <> cid) (transactions db) |},
     redirect "index").
Proof.
  intros Hkeys Hcard. unfold delete_card, commit. rewrite Hcard.
  rewrite flush_None, fold_left_app. simpl.
  destruct (exec_deletes (map id (transactions_of cid (transactions db))) db)
    as [Hcards Htxs].
  unfold run_all in Hcards, Htxs.
  rewrite map_map in Hcards, Htxs. rewrite Hcards, Htxs.
  by rewrite cascade_by_key.
Qed.

(** ** Primary keys stay distinct *)

Lemma next_id_fresh txs : next_id txs ∉ id <$> txs.
Proof.
  assert (Hmax : forall t, t ∈ txs -> id t <= fold_right Z.max 0 (map id txs)).
  { induction txs as [|t' txs IH]; intros t Ht.
    - by apply elem_of_nil in Ht.
    - apply elem_of_cons in Ht as [->|Ht]; simpl; [lia |].
      specialize (IH t Ht). lia. }
  intros Hin. apply list_elem_of_fmap in Hin as (t & Hid & Ht).
  specialize (Hmax t Ht). unfold next_id in Hid. lia.
Qed.

Lemma primary_keys_ok_exec (s : stmt F) db :
  primary_keys_ok db -> primary_keys_ok (exec s db).
Proof.
  unfold primary_keys_ok. intros Hnd. destruct s; simpl; try done.
  - rewrite fmap_app. apply NoDup_app. split; [done |]. split.
    + intros i Hi Hnew. simpl in Hnew. apply list_elem_of_singleton in Hnew.
      subst i. by apply next_id_fresh in Hi.
    + simpl. apply NoDup_singleton.
  - apply (NoDup_fmap_2_strong id).
    + intros t t' Ht Ht' Heq.
      apply list_elem_of_filter in Ht as [_ Ht], Ht' as [_ Ht'].
      by apply (NoDup_key_inj id (transactions db)).
    + apply NoDup_filter. by apply NoDup_fmap_1 in Hnd.
Qed.

Lemma primary_keys_ok_flush ss : forall fault db db',
  primary_keys_ok db -> flush fault ss db = Some db' -> primary_keys_ok db'.
Proof.
  induction ss as [|s ss IH]; intros fault db db' Hok Hflush.
  - destruct fault as [[|k]|]; simpl in Hflush; by simplify_eq.
  - destruct fault as [[|k]|]; simpl in Hflush; [done | |];
      (eapply IH; [| exact Hflush]); by apply primary_keys_ok_exec.
Qed.

Lemma primary_keys_ok_add_transaction fault m form db :
  primary_keys_ok db -> primary_keys_ok (fst (add_transaction fault m form db)).
Proof.
  intros Hok. unfold add_transaction. destruct m; [done |].
  destruct (cards db !! form_card_id form); [| done].
  destruct (commit _ _ _) as [db'|] eqn:Hc; [| done].
  exact (primary_keys_ok_flush _ _ _ _ Hok Hc).
Qed.

Lemma primary_keys_ok_delete_card fault cid db :
  primary_keys_ok db -> primary_keys_ok (fst (delete_card fault cid db)).
Proof.
  intros Hok. unfold delete_card.
  destruct (cards db !! cid); [| done].
  destruct (commit _ _ _) as [db'|] eqn:Hc; [| done].
  exact (primary_keys_ok_flush _ _ _ _ Hok Hc).
Qed.

(** ** The cascade (C9) *)

(** C9: deleting an existing card, the storage working and the primary
    keys being distinct, removes the card and every transaction of the
    card and leaves the transactions of the other cards as they were; the
    statistics computed afterwards are those of the other cards'
    transactions alone. *)
Theorem delete_card_cascades cid db card :
  primary_keys_ok db ->
  cards db !! cid = Some card ->
  let db' := fst (delete_card None cid db) in
  snd (delete_card None cid db) = redirect "index" /\
  cards db' !! cid = None /\
  transactions_of cid (transactions db') = [] /\
  (forall t, t ∈ transactions db' <->
             t ∈ transactions db /\ card_id t <> cid) /\
  (forall cid', cid' <> cid ->
     transactions_of cid' (transactions db')
     = transactions_of cid' (transactions db)) /\
  snd (index db')
  = sorted_months (filter (fun t => card_id t <> cid) (transactions db)).
Proof.
  intros Hkeys Hcard. cbn zeta.
  rewrite (delete_card_post _ _ _ Hkeys Hcard). simpl.
  split; [done |]. split; [apply lookup_delete_eq |]. split; [| split; [| split]].
  - unfold transactions_of. rewrite list_filter_filter.
    apply filter_none. intros t _. tauto.
  - intros t. rewrite list_elem_of_filter. tauto.
  - intros cid' Hne. unfold transactions_of. rewrite list_filter_filter.
    apply filter_ext_elem. intros t _. split; [tauto |].
    intros Hc. split; [done | congruence].
  - done.
Qed.

End CascadeFacts.

(** ** Month keys in calendar order *)

Lemma digit_compare (a b : N) :
  Ascii.compare (digit a) (digit b) = N.compare (a mod 10) (b mod 10).
Proof.
  unfold Ascii.compare, digit.
  pose proof (N.mod_lt a 10). pose proof (N.mod_lt b 10).
  rewrite !N_ascii_embedding by lia.
  destruct (N.compare_spec (48 + a mod 10) (48 + b mod 10)),
           (N.compare_spec (a mod 10) (b mod 10)); try done; lia.
Qed.

Lemma mod10_lt (n : N) : (n mod 10 < 10)%N.
Proof. apply N.mod_lt. lia. Qed.

(** Comparing digit by digit is comparing the numbers. *)
Lemma compare_digits (m a1 a0 b1 b0 : N) (rest : comparison) :
  (a0 < m)%N -> (b0 < m)%N ->
  match N.compare a1 b1 with
  | Eq => match N.compare a0 b0 with Eq => rest | c => c end
  | c => c
  end
  = match N.compare (m * a1 + a0) (m * b1 + b0) with
    | Eq => rest
    | c => c
    end.
Proof.
  intros Ha Hb.
  destruct (N.compare_spec a1 b1) as [->|H1|H1].
  - destruct (N.compare_spec a0 b0) as [->|H0|H0].
    + by rewrite N.compare_refl.
    + assert (Hlt : (m * b1 + a0 < m * b1 + b0)%N) by lia.
      apply N.compare_lt_iff in Hlt. by rewrite Hlt.
    + assert (Hgt : (m * b1 + b0 < m * b1 + a0)%N) by lia.
      apply N.compare_gt_iff in Hgt. by rewrite Hgt.
  - assert (Hlt : (m * a1 + a0 < m * b1 + b0)%N) by nia.
    apply N.compare_lt_iff in Hlt. by rewrite Hlt.
  - assert (Hgt : (m * b1 + b0 < m * a1 + a0)%N) by nia.
    apply N.compare_gt_iff in Hgt. by rewrite Hgt.
Qed.

Lemma compare_pad2 (a b : N) (r1 r2 : string) :
  (a < 100)%N -> (b < 100)%N ->
  String.compare (pad2 a +:+ r1) (pad2 b +:+ r2)
  = match N.compare a b with
    | Eq => String.compare r1 r2
    | c => c
    end.
Proof.
  intros Ha Hb. unfold pad2. simpl. rewrite !digit_compare.
  rewrite (compare_digits 10) by apply mod10_lt.
  by rewrite <- (decimal2 a Ha), <- (decimal2 b Hb).
Qed.

Lemma compare_pad4 (a b : N) (r1 r2 : string) :
  (a < 10000)%N -> (b < 10000)%N ->
  String.compare (pad4 a +:+ r1) (pad4 b +:+ r2)
  = match N.compare a b with
    | Eq => String.compare r1 r2
    | c => c
    end.
Proof.
  intros Ha Hb. unfold pad4, pad2. simpl. rewrite !digit_compare.
  pose proof (mod10_lt (a / 100)). pose proof (mod10_lt (b / 100)).
  pose proof (mod10_lt (a / 10)). pose proof (mod10_lt (b / 10)).
  pose proof (mod10_lt a). pose proof (mod10_lt b).
  rewrite (compare_digits 10 ((a / 10) mod 10) (a mod 10)) by done.
  rewrite (compare_digits 100 ((a / 100) mod 10)) by lia.
  rewrite (compare_digits 1000 ((a / 1000) mod 10)) by lia.
  assert (Ea : (1000 * ((a / 1000) mod 10)
                + (100 * ((a / 100) mod 10)
                   + (10 * ((a / 10) mod 10) + a mod 10)) = a)%N)
    by (rewrite (decimal4 a Ha) at 5; lia).
  assert (Eb : (1000 * ((b / 1000) mod 10)
                + (100 * ((b / 100) mod 10)
                   + (10 * ((b / 10) mod 10) + b mod 10)) = b)%N)
    by (rewrite (decimal4 b Hb) at 5; lia).
  by rewrite Ea, Eb.
Qed.

Lemma strftime_Ym_compare (d1 d2 : datetime) :
  valid_datetime d1 -> valid_datetime d2 ->
  String.compare (strftime_Ym d1) (strftime_Ym d2)
  = match N.compare (year d1) (year d2) with
    | Eq => N.compare (month d1) (month d2)
    | c => c
    end.
Proof.
  intros [Hy1 Hm1] [Hy2 Hm2]. unfold strftime_Ym.
  rewrite compare_pad4 by lia.
  destruct (N.compare (year d1) (year d2)); try done.
  change ("-" +:+ pad2 (month d1)) with (String "-" (pad2 (month d1) +:+ "")).
  change ("-" +:+ pad2 (month d2)) with (String "-" (pad2 (month d2) +:+ "")).
  cbn [String.compare].
  change (Ascii.compare "-" "-") with Eq. cbv iota.
  rewrite compare_pad2 by lia.
  by destruct (N.compare (month d1) (month d2)).
Qed.

Lemma strftime_Ym_ltb (d1 d2 : datetime) :
  valid_datetime d1 -> valid_datetime d2 ->
  String.ltb (strftime_Ym d1) (strftime_Ym d2) = true <-> month_before d1 d2.
Proof.
  intros Hv1 Hv2. unfold String.ltb, month_before.
  rewrite (strftime_Ym_compare _ _ Hv1 Hv2).
  destruct (N.compare_spec (year d1) (year d2)),
           (N.compare_spec (month d1) (month d2)); split; try done; lia.
Qed.

Lemma StronglySorted_lookup_lt {A : Type} (R : A -> A -> Prop) (l : list A) :
  StronglySorted R l ->
  forall (i j : nat) (x y : A),
    l !! i = Some x -> l !! j = Some y -> (i < j)%nat -> R x y.
Proof.
  induction 1 as [|z l _ IH Hz]; intros i j x y Hi Hj Hlt.
  - by rewrite lookup_nil in Hi.
  - destruct j as [|j]; [lia |]. simpl in Hj. destruct i as [|i].
    + simpl in Hi. injection Hi as <-.
      rewrite Forall_forall in Hz. apply Hz.
      by apply list_elem_of_lookup_2 in Hj.
    + simpl in Hi. apply (IH i j); [done | done | lia].
Qed.

Section RouteFacts.
Context {F : Type} `{Amount F}.

Implicit Types (db : database F) (t : Transaction F)
  (txs : list (Transaction F)) (ss : list (stmt F)) (card : Card F).

(** ** The commit, whatever the storage does *)

Lemma flush_fails ss : forall fault db,
  commit_fails fault (length ss) -> flush fault ss db = None.
Proof.
  induction ss as [|s ss IH]; intros [[|k]|] db Hf; simpl in *; try done.
  - lia.
  - apply IH. simpl. lia.
Qed.

Lemma flush_runs ss : forall fault db,
  ~ commit_fails fault (length ss) -> flush fault ss db = Some (run_all ss db).
Proof.
  induction ss as [|s ss IH]; intros [[|k]|] db Hf; simpl in *;
    try done; try (exfalso; apply Hf; lia).
  - apply IH. simpl. lia.
  - by apply IH.
Qed.

(** ** [add_card] *)

Lemma next_card_id_fresh (cs : gmap Z (Card F)) : cs !! next_card_id cs = None.
Proof.
  assert (Hmax : forall l : list (Z * Card F), forall k c,
            (k, c) ∈ l -> k <= fold_right Z.max 0 (map fst l)).
  { induction l as [|[k' c'] l IH]; intros k c Hin.
    - by apply elem_of_nil in Hin.
    - apply elem_of_cons in Hin as [[= -> ->]|Hin]; simpl; [lia |].
      specialize (IH k c Hin). lia. }
  destruct (cs !! next_card_id cs) as [c|] eqn:Hc; [| done].
  apply elem_of_map_to_list in Hc. apply Hmax in Hc.
  unfold next_card_id in Hc. lia.
Qed.



(** ** [delete_card], whatever the storage does *)

Lemma delete_card_any_fault fault cid db card :
  primary_keys_ok db ->
  cards db !! cid = Some card ->
  delete_card fault cid db =
    if decide (commit_fails fault
                 (S (length (transactions_of cid (transactions db)))))
    then (db, unhandled SQLAlchemyError)
    else ({| cards := delete cid (cards db);
             transactions :=
               filter (fun t => card_id t <> cid) (transactions db) |},
          redirect "index").
Proof.
  intros Hkeys Hcard.
  pose proof (delete_card_post cid db card Hkeys Hcard) as Hpost.
  unfold delete_card, commit in *. rewrite Hcard in *.
  set (ss := map _ _ ++ _) in *.
  assert (Hlen : length ss = S (length (transactions_of cid (transactions db)))).
  { unfold ss. rewrite length_app, length_map. simpl. lia. }
  rewrite <- Hlen. case_decide as Hf.
  - by rewrite (flush_fails _ _ _ Hf).
  - rewrite (flush_runs _ _ _ Hf).
    rewrite flush_None in Hpost. exact Hpost.
Qed.

(** X3: deleting an existing card is all or nothing.  If the storage fails
    at any DELETE of the cascade or at the COMMIT, the card, its
    transactions and everything else are as before; otherwise the card and
    all its transactions are gone together. *)
Theorem delete_card_atomic fault cid db card :
  primary_keys_ok db ->
  cards db !! cid = Some card ->
  let db' := fst (delete_card fault cid db) in
  let n := length (transactions_of cid (transactions db)) in
  (commit_fails fault (S n) ->
     db' = db /\ snd (delete_card fault cid db) = unhandled SQLAlchemyError) /\
  (~ commit_fails fault (S n) ->
     cards db' !! cid = None /\ transactions_of cid (transactions db') = []) /\
  (db' = db \/
   (cards db' !! cid = None /\ transactions_of cid (transactions db') = [])).
Proof.
  intros Hkeys Hcard. cbn zeta.
  rewrite (delete_card_any_fault _ _ _ _ Hkeys Hcard).
  assert (Hgone : transactions_of cid
            (filter (fun t => card_id t <> cid) (transactions db)) = []).
  { unfold transactions_of. rewrite list_filter_filter.
    apply filter_none. intros t _. tauto. }
  case_decide as Hf; simpl.
  - split; [done |]. split; [done |]. by left.
  - split; [done |]. split; [| right]; (split; [apply lookup_delete_eq | done]).
Qed.

(** X4: deleting a card twice.  The second request finds no card, answers
    404 and changes nothing; and the first one left every other card, with
    its balance, as it was. *)
Theorem delete_card_twice cid db card :
  primary_keys_ok db ->
  cards db !! cid = Some card ->
  let db' := fst (delete_card None cid db) in
  delete_card None cid db' = (db', abort 404) /\
  (forall cid', cid' <> cid -> cards db' !! cid' = cards db !! cid').
Proof.
  intros Hkeys Hcard. cbn zeta.
  rewrite (delete_card_post _ _ _ Hkeys Hcard). simpl. split.
  - apply delete_card_missing. simpl. apply lookup_delete_eq.
  - intros cid' Hne. by apply lookup_delete_ne.
Qed.

(** ** What a sequence of requests keeps *)

Lemma add_card_any_fault fault (form : card_form F) db :
  add_card fault POST form db =
    if decide (commit_fails fault 1)
    then (db, unhandled SQLAlchemyError)
    else ({| cards :=
               <[next_card_id (cards db) :=
                   {| name := form_name form;
                      card_type := form_card_type form;
                      balance := form_balance form |}]> (cards db);
             transactions := transactions db |},
          redirect "index").
Proof.
  unfold add_card, commit, INSERT_card. set (ss := [UPDATE_card _ _]).
  case_decide as Hf.
  - by rewrite (flush_fails ss fault db Hf).
  - by rewrite (flush_runs ss fault db Hf).
Qed.

Lemma no_orphans_insert cid card db txs :
  Forall (fun t => is_Some (cards db !! card_id t) \/ card_id t = cid) txs ->
  no_orphans {| cards := <[cid := card]> (cards db); transactions := txs |}.
Proof.
  unfold no_orphans. simpl. intros Hall.
  eapply Forall_impl; [exact Hall |]. simpl. intros t Ht.
  destruct (decide (card_id t = cid)) as [->|Hne].
  - rewrite lookup_insert_eq. by eexists.
  - rewrite lookup_insert_ne by done. by destruct Ht.
Qed.

Lemma consistent_add_card fault m (form : card_form F) db :
  consistent db -> consistent (fst (add_card fault m form db)).
Proof.
  intros [Hkeys Horph]. destruct m; [done |].
  rewrite add_card_any_fault. case_decide; [done |]. simpl. split; [done |].
  apply no_orphans_insert.
  eapply Forall_impl; [exact Horph |]. intros t Ht. by left.
Qed.

Lemma consistent_add_transaction fault m (form : transaction_form F) db :
  consistent db -> consistent (fst (add_transaction fault m form db)).
Proof.
  intros Hc. split; [apply primary_keys_ok_add_transaction, Hc |].
  destruct Hc as [_ Horph]. destruct m; [done |].
  destruct (cards db !! form_card_id form) as [card|] eqn:Hcard.
  - rewrite (add_transaction_post _ _ _ _ Hcard).
    assert (Hrec : no_orphans (recorded db card form)).
    { apply no_orphans_insert. apply Forall_app. split.
      - eapply Forall_impl; [exact Horph |]. intros t Ht. by left.
      - apply Forall_singleton. by right. }
    by destruct fault as [[|[|[|k]]]|].
  - by rewrite (add_transaction_missing _ _ _ Hcard).
Qed.

Lemma consistent_delete_card fault cid db :
  consistent db -> consistent (fst (delete_card fault cid db)).
Proof.
  intros Hc. split; [apply primary_keys_ok_delete_card, Hc |].
  destruct Hc as [Hkeys Horph].
  destruct (cards db !! cid) as [card|] eqn:Hcard.
  - rewrite (delete_card_any_fault _ _ _ _ Hkeys Hcard).
    case_decide; [done |]. unfold no_orphans in *. simpl.
    apply Forall_forall. intros t Ht.
    apply list_elem_of_filter in Ht as [Hne Ht].
    rewrite lookup_delete_ne by done.
    rewrite Forall_forall in Horph. by apply Horph.
  - by rewrite (delete_card_missing _ _ _ Hcard).
Qed.

(** X5: whatever requests are served, and wherever the storage fails
    among them, a table that had distinct primary keys and no transaction
    without its card still has both: no request leaves an orphaned
    transaction behind. *)
Theorem serve_keeps_consistent (rs : list (option nat * request F)) db :
  consistent db -> consistent (serve rs db).
Proof.
  revert db. unfold serve.
  induction rs as [|[fault r] rs IH]; intros db Hc; [done |].
  simpl. apply IH. destruct r; simpl.
  - by apply consistent_add_card.
  - by apply consistent_add_transaction.
  - by apply consistent_delete_card.
Qed.

(** One POST to [add_transaction] keeps the ids, names and kinds of the
    cards. *)
Lemma add_transaction_keeps_cards fault m (form : transaction_form F) db cid :
  name <$> cards (fst (add_transaction fault m form db)) !! cid
    = name <$> cards db !! cid /\
  card_type <$> cards (fst (add_transaction fault m form db)) !! cid
    = card_type <$> cards db !! cid.
Proof.
  destruct m; [done |].
  destruct (cards db !! form_card_id form) as [card|] eqn:Hcard.
  - rewrite (add_transaction_post _ _ _ _ Hcard).
    assert (Hrec : name <$> cards (recorded db card form) !! cid
                     = name <$> cards db !! cid /\
                   card_type <$> cards (recorded db card form) !! cid
                     = card_type <$> cards db !! cid).
    { simpl. destruct (decide (form_card_id form = cid)) as [<-|Hne].
      - by rewrite lookup_insert_eq, Hcard.
      - by rewrite lookup_insert_ne. }
    by destruct fault as [[|[|[|k]]]|].
  - by rewrite (add_transaction_missing _ _ _ Hcard).
Qed.

(** X6: recording transactions never creates, removes, renames or
    re-kinds a card: after any sequence of [add_transaction] requests,
    failed ones included, every card id has the name and the kind it had,
    and an id without a card still has none. *)
Theorem add_transaction_writes_balances_only
    (rs : list (option nat * request F)) db cid :
  Forall (fun fr => exists m form, snd fr = add_transaction_request m form)
         rs ->
  name <$> cards (serve rs db) !! cid = name <$> cards db !! cid /\
  card_type <$> cards (serve rs db) !! cid = card_type <$> cards db !! cid /\
  (cards (serve rs db) !! cid = None <-> cards db !! cid = None).
Proof.
  intros Hall. revert db. unfold serve.
  induction Hall as [|[fault r] rs (m & form & Hr) _ IH]; intros db; [done |].
  simpl in Hr. subst r. simpl.
  destruct (IH (fst (add_transaction fault m form db))) as (Hn & Hk & Hd).
  destruct (add_transaction_keeps_cards fault m form db cid) as [Hn1 Hk1].
  split; [by rewrite Hn |]. split; [by rewrite Hk |].
  rewrite Hd. rewrite <- !(fmap_None name), Hn1. done.
Qed.

Lemma post_all_rows (forms : list (transaction_form F)) db :
  map row_fields (transactions (post_all forms db))
  = map row_fields (transactions db)
    ++ map form_fields
         (filter (fun form => is_Some (cards db !! form_card_id form)) forms).
Proof.
  revert db. induction forms as [|form forms IH]; intros db.
  - simpl. by rewrite app_nil_r.
  - rewrite post_all_cons, IH, filter_cons.
    assert (Hsame : filter (fun f => is_Some
                       (cards (add_transaction None POST form db).1
                          !! form_card_id f)) forms
                    = filter (fun f => is_Some (cards db !! form_card_id f))
                             forms).
    { apply list_filter_iff. intros f. rewrite <- !not_eq_None_Some.
      destruct (add_transaction_keeps_cards None POST form db
                  (form_card_id f)) as [Hn _].
      rewrite <- !(fmap_None name), Hn. done. }
    rewrite Hsame.
    destruct (cards db !! form_card_id form) as [card|] eqn:Hcard.
    + rewrite (add_transaction_recorded _ _ _ Hcard).
      rewrite decide_True by by eexists.
      simpl. rewrite map_app, <- app_assoc. done.
    + rewrite (add_transaction_missing _ _ _ Hcard).
      rewrite decide_False by (by intros [? ?]). done.
Qed.


(** ** The order of the two pages *)

Lemma month_before_asym (d1 d2 : datetime) :
  month_before d1 d2 -> ~ month_before d2 d1.
Proof. unfold month_before. lia. Qed.

Lemma strict_on_keys (items : list (string * stats F)) :
  StronglySorted (fun a b => String.ltb b.1 a.1 = true) items ->
  StronglySorted (fun k1 k2 => String.ltb k2 k1 = true) items.*1.
Proof.
  induction 1 as [|x l _ IH Hx]; [constructor |].
  rewrite fmap_cons. constructor; [exact IH |].
  rewrite Forall_fmap. exact Hx.
Qed.


Lemma datetime_leb_not_after (d1 d2 : datetime) :
  datetime_leb d1 d2 = true <-> not_after d1 d2.
Proof.
  unfold datetime_leb, datetime_compare, not_after.
  destruct (N.compare_spec (year d1) (year d2)),
           (N.compare_spec (month d1) (month d2)),
           (N.compare_spec (day d1) (day d2)); split; try done; lia.
Qed.

#[export] Instance date_ge_trans : Transitive (@date_ge F).
Proof.
  intros a b c. unfold date_ge. rewrite !datetime_leb_not_after.
  unfold not_after. lia.
Qed.

#[export] Instance date_ge_total : Total (@date_ge F).
Proof.
  intros a b. unfold date_ge. rewrite !datetime_leb_not_after.
  unfold not_after. lia.
Qed.

(** X9: the [transactions] page shows every row of the table exactly once,
    and a row shown earlier never has an earlier date than a row shown
    later. *)
Theorem transactions_route_most_recent_first db :
  transactions_route db ≡ₚ transactions db /\
  forall (i j : nat) t1 t2,
    transactions_route db !! i = Some t1 ->
    transactions_route db !! j = Some t2 ->
    (i < j)%nat -> not_after (date t2) (date t1).
Proof.
  split; [apply merge_sort_Permutation |].
  intros i j t1 t2 Hi Hj Hij. apply datetime_leb_not_after.
  exact (StronglySorted_lookup_lt date_ge _
           (StronglySorted_merge_sort date_ge _) i j t1 t2 Hi Hj Hij).
Qed.

End RouteFacts.

Section RowOrder.
Context {F : Type} `{ExactAmount F}.

Implicit Types (t : Transaction F) (txs : list (Transaction F))
  (s : stats F).

(** ** The order of the rows *)

Lemma continued_perm s txs txs' :
  txs ≡ₚ txs' -> continued s txs = continued s txs'.
Proof.
  intros Hperm. unfold continued. rewrite !fold_add_start. f_equal.
  - f_equal. apply total_perm. unfold income_amounts.
    apply Permutation_map. by rewrite Hperm.
  - f_equal. apply total_perm. unfold non_income_amounts.
    apply Permutation_map. by rewrite Hperm.
Qed.

Lemma monthly_stats_perm txs txs' :
  txs ≡ₚ txs' -> monthly_stats txs = monthly_stats txs'.
Proof.
  intros Hperm. apply map_eq. intros k. rewrite !monthly_stats_lookup.
  assert (Hmonth : in_month k txs ≡ₚ in_month k txs')
    by (unfold in_month; by rewrite Hperm).
  destruct (in_month k txs) as [|t l] eqn:E, (in_month k txs') as [|t' l'] eqn:E'.
  - done.
  - by apply Permutation_nil_cons in Hmonth.
  - symmetry in Hmonth. by apply Permutation_nil_cons in Hmonth.
  - f_equal. f_equal. by apply continued_perm.
Qed.


End RowOrder.

(** ** The fold read as a sum, in exact arithmetic *)

(** With integer amounts the fold of the deltas is the initial balance
    plus their sum. *)
Lemma fold_deltas_sum (ck : CardKind) (events : list (TransactionKind * Z)) :
  forall bal : Z,
    fold_deltas ck events bal
    = bal + fold_right Z.add 0 (map (signed_delta ck) events).
Proof.
  unfold fold_deltas.
  induction events as [|ev events IH]; intros bal; simpl; [lia |].
  rewrite IH. unfold signed_delta.
  destruct (sign_table ck (fst ev)); simpl; lia.
Qed.

(** ** The ledger against the statistics, in exact arithmetic *)

Lemma total_Z_cons (a : Z) (l : list Z) : total (a :: l) = a + total l.
Proof. exact (total_cons (F := Z) a l). Qed.

Lemma savings_column (items : list (string * stats Z)) :
  column savings (prod_map (fun k => k) with_savings <$> items)
  = column income items - column expenses items.
Proof.
  unfold column. induction items as [|[k s] items IH]; [done |].
  rewrite fmap_cons. cbn [map snd prod_map]. rewrite !total_Z_cons, IH.
  simpl. lia.
Qed.

Lemma savings_total (txs : list (Transaction Z)) :
  column savings (sorted_months txs)
  = total (map income_share txs) - total (map expenses_share txs).
Proof.
  rewrite (column_perm _ _ _ (sorted_months_perm txs)). unfold monthly_stats.
  rewrite map_to_list_fmap.
  change (prod_map Datatypes.id with_savings)
    with (prod_map (fun k : string => k) (with_savings (F := Z))).
  rewrite savings_column.
  rewrite (column_loop income income_share), (column_loop expenses expenses_share).
  - rewrite map_to_list_empty. unfold column. simpl. lia.
  - done.
  - intros t s. unfold bump, expenses_share.
    destruct (String.eqb _ _); simpl; lia.
  - done.
  - intros t s. unfold bump, income_share.
    destruct (String.eqb _ _); simpl; lia.
Qed.

(** The rows of the events of one card: kind and amount. *)
Lemma shares_of_events (ck : CardKind) (txs : list (Transaction Z))
    (events : list (TransactionKind * Z)) :
  Forall2 (fun t ev => transaction_type t = transaction_kind_name (fst ev) /\
                       amount t = snd ev) txs events ->
  fold_right Z.add 0 (map (signed_delta ck) events)
  = match ck with
    | Debit => total (map income_share txs) - total (map expenses_share txs)
    | Credit => - (total (map income_share txs) - total (map expenses_share txs))
    end.
Proof.
  induction 1 as [|t [tk a] txs events [Hk Ha] _ IH].
  - by destruct ck.
  - cbn [map fold_right]. rewrite !total_Z_cons, IH.
    unfold signed_delta, income_share, expenses_share. simpl in *.
    rewrite Hk, Ha. destruct ck, tk; simpl; lia.
Qed.


(** ** Kinds outside the table, seen from both pages *)

Lemma post_all_one_card (cid : Z) (forms : list (transaction_form Z)) :
  forall (db : database Z) (card : Card Z),
    cards db !! cid = Some card ->
    card_type card = "debit" ->
    Forall (fun form => form_card_id form = cid) forms ->
    balance <$> cards (post_all forms db) !! cid
    = Some (balance card + sumZ (map debit_delta forms)).
Proof.
  induction forms as [|form forms IH]; intros db card Hcard Hdebit Hall.
  - simpl. rewrite Hcard. simpl. f_equal. unfold sumZ. simpl. lia.
  - apply Forall_cons in Hall as [Hid Hall]. rewrite post_all_cons.
    pose proof (add_transaction_card_step form db cid card Hcard) as Hstep.
    rewrite decide_True in Hstep by done.
    rewrite (IH _ _ Hstep Hdebit Hall). f_equal. simpl.
    rewrite Hdebit. unfold balance_update, debit_delta, sumZ. simpl.
    destruct (String.eqb _ "expense"); lia.
Qed.

Lemma shares_by_fields (txs : list (Transaction Z)) :
  forall forms : list (transaction_form Z),
    map row_fields txs = map form_fields forms ->
    total (map income_share txs) - total (map expenses_share txs)
    = sumZ (map saving_of forms).
Proof.
  induction txs as [|t txs IH]; intros [|form forms] Hrows; try done.
  injection Hrows as _ Hty Hamt _ _ _ Hrest.
  cbn [map]. rewrite !total_Z_cons. specialize (IH forms Hrest).
  unfold sumZ in *. cbn [fold_right]. rewrite <- IH.
  unfold income_share at 1, expenses_share at 1, saving_of.
  rewrite Hty, Hamt.
  destruct (String.eqb _ "income"); change (@amt_zero Z Z_amount) with 0; lia.
Qed.

Lemma debit_delta_gap (forms : list (transaction_form Z)) :
  sumZ (map debit_delta forms)
  = sumZ (map saving_of forms)
    + 2 * sumZ (map form_amount (filter unknown_kind forms)).
Proof.
  unfold sumZ. induction forms as [|form forms IH]; [done |].
  rewrite filter_cons. cbn [map fold_right]. rewrite IH.
  unfold debit_delta, saving_of, unknown_kind.
  destruct (String.eqb_spec (form_transaction_type form) "expense") as [He|He],
           (String.eqb_spec (form_transaction_type form) "income") as [Hi|Hi].
  - rewrite He in Hi. discriminate.
  - rewrite decide_False by tauto. lia.
  - rewrite decide_False by tauto. lia.
  - rewrite decide_True by done. simpl. lia.
Qed.




(** C4, on the code: with no card 999, [add_transaction] ends in an
    unhandled [AttributeError] (reading [card.card_type] of [None]) where
    [delete_card], which looks the card up with [get_or_404], answers 404.
    Neither changes the database. *)
Lemma missing_card_is_unhandled :
  cards fixture_db !! 999 = None /\
  add_transaction None POST (post_form 999 "expense" 100 2024 1 15) fixture_db
    = (fixture_db, unhandled AttributeError) /\
  delete_card None 999 fixture_db = (fixture_db, abort 404).
Proof. repeat split. Qed.

(** C6, counterexample: one stored transaction of kind "refund".  The
    bucket of its month reports expenses 5, where the sum of the amounts of
    the month's expense transactions is 0. *)
Lemma refund_counted_as_expense :
  let db := post_all [post_form 1 "refund" 5 2024 1 15] fixture_db in
  snd (index db) =
    [("2024-01",
      {| income := 0%float; expenses := 5%float; savings := (-5)%float |})] /\
  total (expense_amounts (in_month "2024-01" (transactions db))) = 0%float /\
  5%float <> 0%float.
Proof.
  split; [by vm_compute |]. split; [by vm_compute |].
  intros Heq. apply (f_equal (fun x => PrimFloat.eqb x 0)) in Heq.
  vm_compute in Heq. discriminate.
Qed.


(** Why the sum law asks for exact addition: in binary64 the grouping of
    the additions shows.  Three incomes, 1e16 in January and 1 twice in
    February: the buckets sum to 10000000000000002, the amounts in table
    order to 1e16. *)
Lemma binary64_sum_depends_on_grouping :
  let db := post_all [post_form 1 "income" 1e16 2024 1 15;
                      post_form 1 "income" 1 2024 2 1;
                      post_form 1 "income" 1 2024 2 2] fixture_db in
  total (map (fun item => income (snd item)) (snd (index db)))
    = 10000000000000002%float /\
  total (income_amounts (transactions db)) = 1e16%float.
Proof. split; by vm_compute. Qed.

(** ** The scenarios of the specification, in binary64 *)

Example scenario_debit_expense :
  balance_update "debit" "expense" 1000%float 100%float = 900%float.
Proof. reflexivity. Qed.

Example scenario_credit_expense :
  balance_update "credit" "expense" 0%float 200%float = 200%float.
Proof. reflexivity. Qed.

Example scenario_credit_payoff :
  balance_update "credit" "income" 300%float 300%float = 0%float.
Proof. reflexivity. Qed.

Example scenario_credit_overpayment :
  balance_update "credit" "income" 100%float 150%float = (-50)%float.
Proof. reflexivity. Qed.

Example scenario_two_months :
  sorted_months
    (transactions (post_all [post_form 1 "expense" 100 2024 1 15;
                             post_form 1 "income" 50 2024 2 1] fixture_db))
  = [("2024-02",
      {| income := 50%float; expenses := 0%float; savings := 50%float |});
     ("2024-01",
      {| income := 0%float; expenses := 100%float; savings := (-100)%float |})].
Proof. by vm_compute. Qed.

(** ** Instances of the theorems *)





(** The UPDATE of the card has run and the INSERT raises. *)
Lemma add_transaction_atomic_witness :
  cards fixture_db !! 1 = Some test_debit_card /\
  commit_fails (Some 1%nat) 2 /\
  fst (add_transaction (Some 1%nat) POST (post_form 1 "expense" 100 2024 1 15)
         fixture_db) = fixture_db.
Proof.
  assert (Hfails : commit_fails (Some 1%nat) 2) by (simpl; lia).
  split; [reflexivity |]. split; [exact Hfails |].
  destruct (add_transaction_atomic (Some 1%nat)
              (post_form 1 "expense" 100 2024 1 15) fixture_db
              test_debit_card eq_refl) as (Hfail & _ & _).
  exact (proj1 (Hfail Hfails)).
Defined.


Lemma monthly_statistics_by_month_witness :
  ("2024-02", {| income := 5000; expenses := 2599; savings := 2401 |})
    ∈ snd (index cents_db).
Proof.
  apply (proj1 (monthly_statistics_by_month cents_db)).
  split; [| by repeat split].
  eexists. split.
  - apply list_elem_of_In. right. left. reflexivity.
  - reflexivity.
Defined.

Lemma delete_card_cascades_witness :
  primary_keys_ok two_card_db /\
  cards two_card_db !! 1 = Some
    {| name := "Test Debit Card"; card_type := "debit";
       balance := 1400%float |} /\
  map id (transactions (fst (delete_card None 1 two_card_db))) = [2] /\
  snd (index (fst (delete_card None 1 two_card_db))) =
    [("2024-01",
      {| income := 0%float; expenses := 400%float;
         savings := (-400)%float |})].
Proof.
  assert (Hkeys : primary_keys_ok two_card_db).
  { apply (bool_decide_unpack _). by vm_compute. }
  split; [exact Hkeys |]. split; [reflexivity |].
  destruct (delete_card_cascades 1 two_card_db _ Hkeys eq_refl)
    as (_ & _ & _ & _ & _ & Hindex).
  split; [by vm_compute |].
  rewrite Hindex. by vm_compute.
Defined.

(** In binary64 the order of the rows shows in the statistics: the same
    three incomes of one month, returned in two orders. *)
Lemma binary64_statistics_depend_on_row_order :
  let rows := transactions
                (post_all [post_form 1 "income" 1e16 2024 1 15;
                           post_form 1 "income" 1 2024 1 16;
                           post_form 1 "income" 1 2024 1 17] fixture_db) in
  map (fun item => income (snd item)) (sorted_months rows) = [1e16%float] /\
  map (fun item => income (snd item)) (sorted_months (rev rows))
    = [10000000000000002%float].
Proof. split; by vm_compute. Qed.

(** ** Instances of the theorems on the other routes *)



(** The second DELETE of the cascade raises. *)
Lemma delete_card_atomic_witness :
  primary_keys_ok two_card_db /\
  length (transactions_of 1 (transactions two_card_db)) = 2%nat /\
  commit_fails (Some 1%nat) 3 /\
  fst (delete_card (Some 1%nat) 1 two_card_db) = two_card_db.
Proof.
  assert (Hkeys : primary_keys_ok two_card_db).
  { apply (bool_decide_unpack _). by vm_compute. }
  assert (Hfails : commit_fails (Some 1%nat) 3) by (simpl; lia).
  split; [exact Hkeys |]. split; [reflexivity |]. split; [exact Hfails |].
  destruct (delete_card_atomic (Some 1%nat) 1 two_card_db _ Hkeys eq_refl)
    as (Hfail & _ & _).
  exact (proj1 (Hfail Hfails)).
Defined.

Lemma delete_card_twice_witness :
  primary_keys_ok two_card_db /\
  snd (delete_card None 1 (fst (delete_card None 1 two_card_db))) = abort 404.
Proof.
  assert (Hkeys : primary_keys_ok two_card_db).
  { apply (bool_decide_unpack _). by vm_compute. }
  split; [exact Hkeys |].
  destruct (delete_card_twice 1 two_card_db _ Hkeys eq_refl) as [Hsecond _].
  by rewrite Hsecond.
Defined.

Lemma serve_keeps_consistent_witness :
  consistent empty_db /\ consistent (serve busy_day empty_db).
Proof.
  assert (Hempty : consistent empty_db) by (split; constructor).
  split; [exact Hempty |].
  exact (serve_keeps_consistent busy_day empty_db Hempty).
Defined.

Lemma add_transaction_writes_balances_only_witness :
  Forall (fun fr => exists m form, snd fr = add_transaction_request m form)
         two_posts /\
  card_type <$> cards (serve two_posts fixture_db) !! 2 = Some "credit".
Proof.
  assert (Hall : Forall (fun fr => exists m form,
                           snd fr = add_transaction_request m form) two_posts)
    by (repeat constructor; by eexists _, _).
  split; [exact Hall |].
  destruct (add_transaction_writes_balances_only two_posts fixture_db 2 Hall)
    as (_ & Hkind & _).
  rewrite Hkind. reflexivity.
Defined.


Lemma transactions_route_most_recent_first_witness :
  map id (transactions_route two_card_db) = [3; 1; 2] /\
  transactions_route two_card_db ≡ₚ transactions two_card_db.
Proof.
  split; [by vm_compute |].
  exact (proj1 (transactions_route_most_recent_first two_card_db)).
Defined.



